(** * Granted-patents example algorithms: model and verified properties

    Shallow embedding of the two example algorithms
    [GrantedPatentsDataAlgorithm] (Demonstration.py) and
    [GrantedPatentsDataUniverseAlgorithm] (DemonstrationUniverse.py).

    Conventions of the model.
    - Python [int] fields are [Z].  A Python [float] is represented by the
      rational it denotes (the literal [0.5] is [1#2], [1.0] is [1]).  The
      score [TechDiversity] is only compared; a NaN score is outside the
      model.  The one arithmetic operation on floats, the division in
      [OnSecuritiesChanged], is done on IEEE binary64 numbers.
    - The host engine is not part of the repository.  Every call into it
      that has an effect ([SetHoldings], [Debug], [Log], ...) is recorded as
      a [Command] in the order it is made; every read of engine state
      ([Portfolio], the data dictionary of a slice) is a lookup in an
      explicit value, and a lookup of a missing key raises.
    - An f-string is kept as the list of its literal and interpolated
      pieces; [render] turns it into text for any rendering of numbers. *)

From Stdlib Require Import QArith Sorted Permutation.
From Stdlib Require Import PrimFloat SpecFloat FloatOps Uint63.
From stdpp Require Import gmap strings list fin_maps pretty.

Local Open Scope Z_scope.

(** ** The external data contract *)

(** A security identifier.  [str(symbol)] is the identifier itself. *)
Abbreviation Symbol := string (only parsing).

(** One patent-metric record, as delivered by the data feed. *)
Record GrantedPatentsData := mkGrantedPatentsData {
  datum_Symbol : Symbol;
  PatentsFiled : Z;
  CumulativePatents : Z;
  TechDiversity : Q;
  Patents90d : Z
}.

(** Python's [a > b] on the score type. *)
Definition Qgtb (a b : Q) : bool :=
  match (a ?= b)%Q with Gt => true | _ => false end.

(** Python's [a < b] on the score type. *)
Definition Qltb (a b : Q) : bool :=
  match (a ?= b)%Q with Lt => true | _ => false end.

(** ** Doubles *)

(** The rational a finite double denotes, in lowest terms (0 for the
    infinities and NaN). *)
Definition exact_value (x : float) : Q :=
  match Prim2SF x with
  | S754_finite s m e =>
      let n := if s then Z.neg m else Z.pos m in
      Qred (if 0 <=? e then (n * 2 ^ e) # 1
            else n # (2 ^ Z.to_pos (- e))%positive)
  | _ => 0%Q
  end.

(** The conversion of a list length to a double when it meets a float in
    an arithmetic operation; a length is below [2^63]. *)
Definition float_of_len (n : Z) : float := PrimFloat.of_uint63 (Uint63.of_Z n).

(** The value of the Python expression [1.0 / n] for a length [n]. *)
Definition double_quotient (n : Z) : Q :=
  exact_value (1 / float_of_len n)%float.

(** ** f-strings *)

Inductive Piece :=
| Lit (s : string)
| PSym (s : Symbol)
| PInt (n : Z)
| PFloat (q : Q).

Abbreviation FString := (list Piece) (only parsing).

Section Render.
(** How the host formats a float; integers are printed in decimal. *)
Variable str_float : Q -> string.

Definition render_piece (p : Piece) : string :=
  match p with
  | Lit s => s
  | PSym s => s
  | PInt n => pretty n
  | PFloat q => str_float q
  end.

Fixpoint render (f : FString) : string :=
  match f with
  | [] => ""
  | p :: f' => render_piece p +:+ render f'
  end.
End Render.

(** [contains s t]: the text [s] occurs in the text [t]. *)
Definition contains (s t : string) : Prop :=
  exists pre post, t = pre +:+ s +:+ post.

(** ** Commands sent to the host engine *)

Inductive Resolution := Tick | Second | Minute | Hour | Daily.

Inductive Command :=
| SetHoldings (s : Symbol) (weight : Q)
| Debug (msg : FString)
| Log (msg : FString)
| SetStartDate (y m d : Z)
| SetEndDate (y m d : Z)
| SetCash (amount : Z)
| SetUniverseResolution (r : Resolution)
| AddEquity (ticker : string) (r : Resolution)
| AddData (underlying : Symbol)
| AddUniverse
| History (days hours minutes seconds : Z).

(** The target-weight commands of a trace, in order. *)
Fixpoint holdings_commands (t : list Command) : list (Symbol * Q) :=
  match t with
  | [] => []
  | SetHoldings s w :: t' => (s, w) :: holdings_commands t'
  | _ :: t' => holdings_commands t'
  end.

(** ** Callbacks as computations

    A callback runs against a host state [H], may raise, and emits
    commands.  The commands emitted before a raise are kept. *)

Inductive Exn :=
| DataKeyNotFound (s : Symbol)
| PortfolioKeyNotFound (s : Symbol)
| InvalidReference (l : positive).

Inductive Res (A : Type) :=
| Ok (a : A)
| Raise (e : Exn).
Arguments Ok {A} a.
Arguments Raise {A} e.

Record Outcome (H A : Type) := mkOutcome {
  result : Res A;
  host : H;
  trace : list Command
}.
Arguments mkOutcome {H A}.
Arguments result {H A}.
Arguments host {H A}.
Arguments trace {H A}.

Definition M (H A : Type) : Type := H -> Outcome H A.

(** The outcome [o], after the commands [t] were emitted. *)
Definition prepend {H A} (t : list Command) (o : Outcome H A) : Outcome H A :=
  mkOutcome (result o) (host o) (t ++ trace o).

Definition bind {H A B} (k : A -> M H B) (m : M H A) : M H B :=
  fun h =>
    let o := m h in
    match result o with
    | Ok a => prepend (trace o) (k a (host o))
    | Raise e => mkOutcome (Raise e) (host o) (trace o)
    end.

Global Instance M_ret {H} : MRet (M H) :=
  fun A a h => mkOutcome (Ok a) h [].

Global Instance M_bind {H} : MBind (M H) :=
  fun A B k m => bind k m.

Definition raise {H A} (e : Exn) : M H A :=
  fun h => mkOutcome (Raise e) h [].

Definition emit {H} (c : Command) : M H unit :=
  fun h => mkOutcome (Ok tt) h [c].

Definition get {H} : M H H :=
  fun h => mkOutcome (Ok h) h [].

Definition put {H} (h' : H) : M H unit :=
  fun _ => mkOutcome (Ok tt) h' [].

(** [for x in l: body x] *)
Fixpoint for_each {H A} (l : list A) (body : A -> M H unit) : M H unit :=
  match l with
  | [] => mret tt
  | x :: l' => body x ;; for_each l' body
  end.

(** * Demonstration.py: the single-security algorithm *)

Module Demonstration.

(** [self.Portfolio]: the quantity held of every security the engine
    knows. *)
Abbreviation Portfolio := (gmap Symbol Q) (only parsing).

(** [holding.Invested]: the quantity is not zero. *)
Definition Invested (quantity : Q) : bool := negb (Qeq_bool quantity 0).

(** [self.Portfolio.Invested]: some security is held. *)
Definition Portfolio_Invested : M Portfolio bool :=
  p ← get ;
  mret (existsb (fun kv => Invested (snd kv)) (map_to_list p)).

(** [self.Portfolio[symbol]] *)
Definition Portfolio_getitem (s : Symbol) : M Portfolio Q :=
  p ← get ;
  match p !! s with
  | Some q => mret q
  | None => raise (PortfolioKeyNotFound s)
  end.

(** The part of a slice the algorithm reads: [slice.Get(GrantedPatentsData)],
    a dictionary keyed by symbol. *)
Record Slice := mkSlice {
  Get_GrantedPatentsData : gmap Symbol GrantedPatentsData
}.

(** [data[symbol]] *)
Definition data_getitem {H} (data : gmap Symbol GrantedPatentsData)
    (s : Symbol) : M H GrantedPatentsData :=
  match data !! s with
  | Some d => mret d
  | None => raise (DataKeyNotFound s)
  end.

(** [if data:] on a dictionary: it is not empty. *)
Definition truthy (data : gmap Symbol GrantedPatentsData) : bool :=
  negb (bool_decide (size data = 0%nat)).

Record Algorithm := mkAlgorithm {
  equity_symbol : Symbol;
  patent_data_symbol : Symbol
}.

(** [Initialize]; the two symbols are what the engine returns for the
    subscriptions. *)
Definition Initialize {H} (equity patent_data : Symbol) : M H Algorithm :=
  emit (SetStartDate 2010 1 1) ;;
  emit (SetEndDate 2025 12 31) ;;
  emit (AddEquity "AAPL" Daily) ;;
  emit (AddData equity) ;;
  mret (mkAlgorithm equity patent_data).

Definition weight_of (patent_data : GrantedPatentsData) : Q :=
  if Qgtb (TechDiversity patent_data) (1#2) then 1%Q else (1#2)%Q.

Definition bought_message (self : Algorithm)
    (patent_data : GrantedPatentsData) : FString :=
  [Lit "Bought "; PSym (equity_symbol self);
   Lit " - Patents Filed: "; PInt (PatentsFiled patent_data);
   Lit ", Tech Diversity: "; PFloat (TechDiversity patent_data)].

Definition OnData (self : Algorithm) (slice : Slice) : M Portfolio unit :=
  let data := Get_GrantedPatentsData slice in
  if truthy data then
    patent_data ← data_getitem data (patent_data_symbol self) ;
    if 0 <? PatentsFiled patent_data then
      let weight := weight_of patent_data in
      invested ← Portfolio_Invested ;
      if negb invested then
        (emit (SetHoldings (equity_symbol self) weight) ;;
         emit (Debug (bought_message self patent_data)))
      else mret tt
    else
      holding ←
        (if 0 <? CumulativePatents patent_data then
           (h ← Portfolio_getitem (equity_symbol self) ;
            mret (Invested h))
         else mret false) ;
      if (holding : bool) then mret tt else mret tt
  else mret tt.

Inductive OrderStatus :=
| New | Submitted | PartiallyFilled | Filled | Canceled
| NoStatus | Invalid | CancelPending | UpdateSubmitted.

Definition is_Filled (s : OrderStatus) : bool :=
  match s with Filled => true | _ => false end.

Record OrderEvent := mkOrderEvent {
  Status : OrderStatus;
  OrderSymbol : Symbol;
  FillQuantity : Q
}.

Definition filled_message (orderEvent : OrderEvent) : FString :=
  [Lit "Order Filled: "; PSym (OrderSymbol orderEvent);
   Lit " - Quantity: "; PFloat (FillQuantity orderEvent)].

Definition OnOrderEvent {H} (self : Algorithm) (orderEvent : OrderEvent)
    : M H unit :=
  if is_Filled (Status orderEvent) then
    emit (Debug (filled_message orderEvent))
  else mret tt.

(** *** Vocabulary of the statements *)

(** The portfolio holds a position in security [s]. *)
Definition holds_position (p : Portfolio) (s : Symbol) : bool :=
  match p !! s with
  | Some q => Invested q
  | None => false
  end.

(** The portfolio holds no position in any security. *)
Definition holds_nothing (p : Portfolio) : Prop :=
  forall s q, p !! s = Some q -> Invested q = false.

(** Only security [s] can carry a position. *)
Definition trades_only (p : Portfolio) (s : Symbol) : Prop :=
  forall s' q, s' <> s -> p !! s' = Some q -> Invested q = false.

(** The weight the rule assigns to a score. *)
Definition rule_weight (score : Q) (w : Q) : Prop :=
  ((1#2 < score)%Q -> w = 1%Q) /\ (~ (1#2 < score)%Q -> w = (1#2)%Q).

(** The entry rule read per security: for a delivered record with
    [PatentsFiled > 0], the command with the rule's weight is issued
    exactly when no position in the subscribed security is held. *)
Definition entry_rule_per_security (self : Algorithm) (slice : Slice)
    (p : Portfolio) : Prop :=
  forall r,
    Get_GrantedPatentsData slice !! patent_data_symbol self = Some r ->
    0 < PatentsFiled r ->
    exists w, rule_weight (TechDiversity r) w /\
      (holdings_commands (trace (OnData self slice p))
         = [(equity_symbol self, w)]
       <-> holds_position p (equity_symbol self) = false).

(** *** Sample inputs *)

Definition sample_algorithm : Algorithm :=
  mkAlgorithm "AAPL" "AAPL.GrantedPatentsData".

(** PatentsFiled 5, TechDiversity 0.8. *)
Definition sample_record : GrantedPatentsData :=
  mkGrantedPatentsData "AAPL.GrantedPatentsData" 5 120 (8#10) 14.

(** PatentsFiled 0, CumulativePatents 120. *)
Definition quiet_record : GrantedPatentsData :=
  mkGrantedPatentsData "AAPL.GrantedPatentsData" 0 120 (3#10) 0.

Definition sample_slice : Slice :=
  mkSlice {[ "AAPL.GrantedPatentsData" := sample_record ]}.

Definition quiet_slice : Slice :=
  mkSlice {[ "AAPL.GrantedPatentsData" := quiet_record ]}.

(** A slice with patent data, but for another symbol. *)
Definition other_slice : Slice :=
  mkSlice {[ "MSFT.GrantedPatentsData" := sample_record ]}.

Definition empty_slice : Slice := mkSlice ∅.

Definition flat_portfolio : gmap string Q := {[ "AAPL" := 0%Q ]}.

Definition long_portfolio : gmap string Q := {[ "AAPL" := 100%Q ]}.

(** No AAPL position, but the account carries another one. *)
Definition mixed_portfolio : gmap string Q :=
  {[ "AAPL" := 0%Q ; "MSFT" := 10%Q ]}.

Definition sample_fill : OrderEvent := mkOrderEvent Filled "AAPL" 100.

(** An account that does not know the subscribed equity. *)
Definition foreign_portfolio : gmap string Q := {[ "MSFT" := 0%Q ]}.

(** The sample slice with a record of another stream next to it. *)
Definition crowded_slice : Slice :=
  mkSlice {[ "AAPL.GrantedPatentsData" := sample_record ;
             "MSFT.GrantedPatentsData" := quiet_record ]}.

End Demonstration.

(** * DemonstrationUniverse.py: the universe-selection algorithm *)

(** ** Python's [list.sort(key=..., reverse=...)]

    The built-in sort compares keys with [<] only and is stable.  With
    [reverse=True] the list is reversed, sorted ascending and reversed
    again, which keeps elements with equal keys in their original order. *)

Section ListSort.
Context {A : Type}.
Variable key : A -> Q.

Fixpoint insert_sorted (x : A) (l : list A) : list A :=
  match l with
  | [] => [x]
  | y :: l' =>
      if Qltb (key y) (key x) then y :: insert_sorted x l' else x :: l
  end.

Fixpoint sort_ascending (l : list A) : list A :=
  match l with
  | [] => []
  | x :: l' => insert_sorted x (sort_ascending l')
  end.

Definition list_sort (reverse : bool) (l : list A) : list A :=
  if reverse then rev (sort_ascending (rev l)) else sort_ascending l.

(** Orders on elements by their keys, and the test for a given key. *)
Definition ascending (a b : A) : Prop := (key a <= key b)%Q.
Definition descending (a b : A) : Prop := (key b <= key a)%Q.
Definition same_key (k : Q) (a : A) : bool := Qeq_bool (key a) k.
End ListSort.

Module Universe.

(** Python lists are mutable objects: the host state of this algorithm
    is the store of list objects, addressed by reference. *)
Abbreviation Heap := (gmap positive (list GrantedPatentsData)) (only parsing).

(** Read the list a reference points to. *)
Definition read_list (r : positive) : M Heap (list GrantedPatentsData) :=
  h ← get ;
  match h !! r with
  | Some l => mret l
  | None => raise (InvalidReference r)
  end.

(** Allocate a new list object. *)
Definition new_list (l : list GrantedPatentsData) : M Heap positive :=
  h ← get ;
  let r := fresh (dom h) in
  put (<[r := l]> h) ;;
  mret r.

(** [r.sort(key=lambda x: x.TechDiversity, reverse=True)], in place. *)
Definition sort_in_place (r : positive) (key : GrantedPatentsData -> Q)
    (reverse : bool) : M Heap unit :=
  l ← read_list r ;
  h ← get ;
  put (<[r := list_sort key reverse l]> h).

Definition len {A} (l : list A) : Z := Z.of_nat (length l).

Definition datum_message (datum : GrantedPatentsData) : FString :=
  [PSym (datum_Symbol datum);
   Lit " - Patents Filed: "; PInt (PatentsFiled datum);
   Lit ", Tech Diversity: "; PFloat (TechDiversity datum);
   Lit ", 90d Patents: "; PInt (Patents90d datum)].

(** The condition of the list comprehension. *)
Definition selection_criteria (d : GrantedPatentsData) : bool :=
  (0 <? Patents90d d) && Qgtb (TechDiversity d) (1#2)
  && (10 <? CumulativePatents d).

(** [UniverseSelection(self, data)]; [data] is the reference to the
    batch the engine passes in. *)
Definition UniverseSelection (data : positive) : M Heap (list Symbol) :=
  batch ← read_list data ;
  for_each batch (fun datum => emit (Log (datum_message datum))) ;;
  batch' ← read_list data ;
  selected ← new_list (List.filter selection_criteria batch') ;
  sort_in_place selected TechDiversity true ;;
  sorted ← read_list selected ;
  mret (map datum_Symbol sorted).

Record Security := mkSecurity { security_Symbol : Symbol }.

Record SecurityChanges := mkSecurityChanges {
  AddedSecurities : list Security;
  RemovedSecurities : list Security
}.

Definition changed_message (changes : SecurityChanges) : FString :=
  [Lit "Universe changed - Added: "; PInt (len (AddedSecurities changes));
   Lit ", Removed: "; PInt (len (RemovedSecurities changes))].

Definition OnSecuritiesChanged {H} (changes : SecurityChanges) : M H unit :=
  emit (Log (changed_message changes)) ;;
  if 0 <? len (AddedSecurities changes) then
    let weight := (1 / float_of_len (len (AddedSecurities changes)))%float in
    for_each (AddedSecurities changes)
      (fun security =>
         emit (SetHoldings (security_Symbol security) (exact_value weight)))
  else mret tt.

Definition warning_message (n : Z) : FString :=
  [Lit "Warning: Expected 1 day of historical data, got "; PInt n].

Definition historical_message (n : Z) : FString :=
  [Lit "Historical universe contains "; PInt n; Lit " stocks"].

(** [Initialize]; [history] is what the engine returns for the
    one-day history request on the universe, one entry per date. *)
Definition Initialize {H} (history : list (list GrantedPatentsData))
    : M H unit :=
  emit (SetUniverseResolution Daily) ;;
  emit (SetStartDate 2022 2 14) ;;
  emit (SetEndDate 2022 2 18) ;;
  emit (SetCash 100000) ;;
  emit AddUniverse ;;
  emit (History 1 0 0 0) ;;
  (if negb (len history =? 1) then
     emit (Log (warning_message (len history)))
   else mret tt) ;;
  for_each history
    (fun dataForDate => emit (Log (historical_message (len dataForDate)))).

(** *** Vocabulary of the statements *)

(** The three selection conditions, as a proposition. *)
Definition meets_criteria (d : GrantedPatentsData) : Prop :=
  0 < Patents90d d /\ (1#2 < TechDiversity d)%Q /\ 10 < CumulativePatents d.

(** The records of a list whose score equals [k], in order. *)
Definition with_score (k : Q) (l : list GrantedPatentsData)
    : list GrantedPatentsData :=
  List.filter (same_key TechDiversity k) l.

(** [s] lists the selected records of [batch]: exactly the records
    that meet the criteria, most diverse first, records of equal score
    in their order in [batch]. *)
Record selection_of (batch s : list GrantedPatentsData) : Prop := {
  selection_exact : Permutation s (List.filter selection_criteria batch);
  selection_descending :
    StronglySorted (descending TechDiversity) s;
  selection_stable :
    forall k, with_score k s
              = with_score k (List.filter selection_criteria batch)
}.

(** The weighting rule read over the rationals: every added security
    gets a target-holdings command whose weight is the rational [1/N],
    where [N] is the number of added securities. *)
Definition weights_exactly_one_over_N {H} (changes : SecurityChanges)
    (h : H) : Prop :=
  forall security,
    In security (AddedSecurities changes) ->
    exists w,
      In (security_Symbol security, w)
        (holdings_commands (trace (OnSecuritiesChanged changes h))) /\
      (w == 1 # Pos.of_nat (length (AddedSecurities changes)))%Q.

(** A log line whose text starts with "Warning:". *)
Definition is_warning (c : Command) : bool :=
  match c with
  | Log (Lit s :: _) => String.prefix "Warning:" s
  | _ => false
  end.

(** The commands of [Initialize] that come before the history check. *)
Definition setup_commands : list Command :=
  [SetUniverseResolution Daily; SetStartDate 2022 2 14;
   SetEndDate 2022 2 18; SetCash 100000; AddUniverse;
   History 1 0 0 0].

(** No two records of [l] have the same score. *)
Definition distinct_scores (l : list GrantedPatentsData) : Prop :=
  forall k, (length (with_score k l) <= 1)%nat.

(** *** Sample inputs *)

(** The batch of the spec's example. *)
Definition record_A : GrantedPatentsData :=
  mkGrantedPatentsData "A" 1 20 (7#10) 2.
Definition record_B : GrantedPatentsData :=
  mkGrantedPatentsData "B" 1 50 (9#10) 0.
Definition record_C : GrantedPatentsData :=
  mkGrantedPatentsData "C" 1 15 (6#10) 1.

(** Same score as [record_A], written with another denominator. *)
Definition record_D : GrantedPatentsData :=
  mkGrantedPatentsData "D" 1 15 (14#20) 1.

Definition sample_batch : list GrantedPatentsData :=
  [record_A; record_B; record_C; record_D].

Definition sample_heap : gmap positive (list GrantedPatentsData) :=
  {[ 1%positive := sample_batch ]}.

(** The sample batch in another order, without the tie. *)
Definition shuffled_batch : list GrantedPatentsData :=
  [record_C; record_B; record_A].

Definition shuffled_heap : gmap positive (list GrantedPatentsData) :=
  {[ 7%positive := shuffled_batch ]}.

(** The change the engine reports after the first selection on the
    sample batch. *)
Definition selected_changes : SecurityChanges :=
  mkSecurityChanges [mkSecurity "A"; mkSecurity "D"; mkSecurity "C"] [].

Definition sample_changes : SecurityChanges :=
  mkSecurityChanges [mkSecurity "A"; mkSecurity "C"; mkSecurity "D"]
                    [mkSecurity "B"].

End Universe.

(** * Properties *)

(** ** Comparisons on scores *)

Lemma Qltb_lt (a b : Q) : Qltb a b = true <-> (a < b)%Q.
Proof.
  unfold Qltb. rewrite Qlt_alt. destruct (a ?= b)%Q; split; congruence.
Qed.

Lemma Qltb_ge (a b : Q) : Qltb a b = false <-> (b <= a)%Q.
Proof.
  rewrite <- not_true_iff_false, Qltb_lt. split.
  - apply Qnot_lt_le.
  - apply Qle_not_lt.
Qed.

Lemma Qgtb_lt (a b : Q) : Qgtb a b = true <-> (b < a)%Q.
Proof.
  unfold Qgtb. change (b < a)%Q with (a > b)%Q. rewrite Qgt_alt.
  destruct (a ?= b)%Q; split; congruence.
Qed.

Lemma Qgtb_not_lt (a b : Q) : Qgtb a b = false <-> ~ (b < a)%Q.
Proof. rewrite <- Qgtb_lt. symmetry. apply not_true_iff_false. Qed.

(** ** The sort *)

Section ListSortFacts.
Context {A : Type}.
Variable key : A -> Q.

Local Abbreviation ascending := (ascending key).
Local Abbreviation descending := (descending key).
Local Abbreviation same_key := (same_key key).

Lemma insert_sorted_perm x l : Permutation (insert_sorted key x l) (x :: l).
Proof.
  induction l as [|y l IH]; simpl; [reflexivity|].
  destruct (Qltb (key y) (key x)); [|reflexivity].
  rewrite IH. apply perm_swap.
Qed.

Lemma sort_ascending_perm l : Permutation (sort_ascending key l) l.
Proof.
  induction l as [|x l IH]; simpl; [constructor|].
  rewrite insert_sorted_perm. now constructor.
Qed.

Lemma insert_sorted_ascending x l :
  StronglySorted ascending l ->
  StronglySorted ascending (insert_sorted key x l).
Proof.
  induction 1 as [|y l Hl IH Hy]; simpl.
  - repeat constructor.
  - destruct (Qltb (key y) (key x)) eqn:E.
    + constructor; [exact IH|].
      eapply Permutation_Forall; [symmetry; apply insert_sorted_perm|].
      constructor; [|exact Hy].
      apply Qlt_le_weak, Qltb_lt, E.
    + apply Qltb_ge in E.
      constructor; [now constructor|].
      constructor; [exact E|].
      eapply List.Forall_impl; [|exact Hy].
      intros z Hz. unfold ascending in *. eapply Qle_trans; eassumption.
Qed.

Lemma sort_ascending_sorted l : StronglySorted ascending (sort_ascending key l).
Proof.
  induction l as [|x l IH]; simpl; [constructor|].
  now apply insert_sorted_ascending.
Qed.

Lemma StronglySorted_snoc (R : A -> A -> Prop) l x :
  StronglySorted R l -> Forall (fun y => R y x) l ->
  StronglySorted R (l ++ [x]).
Proof.
  induction 1 as [|y l Hl IH Hy]; simpl; intros Hx.
  - repeat constructor.
  - inversion Hx; subst. constructor; [now apply IH|].
    apply Forall_app; split; [exact Hy|]. now repeat constructor.
Qed.

Lemma StronglySorted_rev_flip (R : A -> A -> Prop) l :
  StronglySorted R l -> StronglySorted (fun a b => R b a) (rev l).
Proof.
  induction 1 as [|y l Hl IH Hy]; simpl; [constructor|].
  apply StronglySorted_snoc; [exact IH|].
  apply List.Forall_forall. intros z Hz. apply In_rev in Hz.
  rewrite List.Forall_forall in Hy. now apply Hy.
Qed.

Lemma insert_sorted_same_key k x l :
  List.filter (same_key k) (insert_sorted key x l)
  = List.filter (same_key k) (x :: l).
Proof.
  induction l as [|y l IH]; [reflexivity|].
  cbn [insert_sorted]. destruct (Qltb (key y) (key x)) eqn:E; [|reflexivity].
  cbn [List.filter] in *. rewrite IH.
  destruct (same_key k y) eqn:Ey, (same_key k x) eqn:Ex; try reflexivity.
  exfalso. unfold same_key in *.
  apply Qeq_bool_iff in Ey, Ex. apply Qltb_lt in E.
  rewrite Ey, Ex in E. exact (Qlt_irrefl _ E).
Qed.

Lemma sort_ascending_same_key k l :
  List.filter (same_key k) (sort_ascending key l) = List.filter (same_key k) l.
Proof.
  induction l as [|x l IH]; [reflexivity|].
  cbn [sort_ascending]. rewrite insert_sorted_same_key.
  cbn [List.filter]. now rewrite IH.
Qed.

(** [sort(key=..., reverse=True)] permutes the list, ... *)
Lemma list_sort_reverse_perm l : Permutation (list_sort key true l) l.
Proof.
  unfold list_sort.
  rewrite <- Permutation_rev, sort_ascending_perm. symmetry. apply Permutation_rev.
Qed.

(** ... puts larger keys first, ... *)
Lemma list_sort_reverse_descending l :
  StronglySorted descending (list_sort key true l).
Proof.
  unfold list_sort.
  apply (StronglySorted_rev_flip ascending), sort_ascending_sorted.
Qed.

(** ... and keeps elements of equal key in their original order. *)
Lemma list_sort_reverse_stable k l :
  List.filter (same_key k) (list_sort key true l) = List.filter (same_key k) l.
Proof.
  unfold list_sort.
  rewrite List.filter_rev, sort_ascending_same_key, List.filter_rev.
  apply rev_involutive.
Qed.

(** Two descending lists with the same elements of every key, in the same
    order, are the same list. *)
Lemma descending_stable_unique l1 l2 :
  StronglySorted descending l1 -> StronglySorted descending l2 ->
  (forall k, List.filter (same_key k) l1 = List.filter (same_key k) l2) ->
  l1 = l2.
Proof.
  intros H1. revert l2.
  induction H1 as [|a l1 Hl1 IH Ha]; intros l2 H2 Hk.
  - destruct l2 as [|b l2]; [reflexivity|].
    specialize (Hk (key b)). cbn in Hk. unfold same_key in Hk.
    rewrite (proj2 (Qeq_bool_iff _ _) (Qeq_refl _)) in Hk. discriminate.
  - destruct H2 as [|b l2 Hl2 Hb].
    + specialize (Hk (key a)). cbn in Hk. unfold same_key in Hk.
      rewrite (proj2 (Qeq_bool_iff _ _) (Qeq_refl _)) in Hk. discriminate.
    + assert (Hin : forall (x : A) l l', 
                 List.filter (same_key (key x)) l = List.filter (same_key (key x)) l' ->
                 In x l -> In x l').
      { intros x l l' E Hx.
        assert (In x (List.filter (same_key (key x)) l)) as Hx'.
        { apply List.filter_In. split; [exact Hx|].
          apply Qeq_bool_iff, Qeq_refl. }
        rewrite E in Hx'. now apply List.filter_In in Hx'. }
      assert (Hab : (key a == key b)%Q).
      { apply Qle_antisym.
        - pose proof (Hin a _ _ (Hk (key a)) (or_introl eq_refl)) as [->|Ha'].
          + apply Qle_refl.
          + rewrite List.Forall_forall in Hb. exact (Hb _ Ha').
        - pose proof (Hin b _ _ (eq_sym (Hk (key b))) (or_introl eq_refl)) as [->|Hb'].
          + apply Qle_refl.
          + rewrite List.Forall_forall in Ha. exact (Ha _ Hb'). }
      assert (a = b) as ->.
      { specialize (Hk (key a)). cbn in Hk. unfold same_key in Hk.
        rewrite (proj2 (Qeq_bool_iff _ _) (Qeq_refl _)) in Hk.
        rewrite (proj2 (Qeq_bool_iff _ _) (Qeq_sym _ _ Hab)) in Hk.
        congruence. }
      f_equal. apply IH; [exact Hl2|].
      intros k. specialize (Hk k). cbn in Hk.
      destruct (same_key k b); congruence.
Qed.
End ListSortFacts.

(** ** Running computations *)

Lemma bind_Ok {H A B} (m : M H A) (k : A -> M H B) h a h1 t1 :
  m h = mkOutcome (Ok a) h1 t1 -> (m ≫= k) h = prepend t1 (k a h1).
Proof. intros E. unfold mbind, M_bind, bind. now rewrite E. Qed.

Lemma bind_emit {H B} (c : Command) (k : unit -> M H B) h :
  (emit c ≫= k) h = prepend [c] (k tt h).
Proof. reflexivity. Qed.

Lemma bind_mret {H A B} (a : A) (k : A -> M H B) h :
  (mret a ≫= k) h = prepend [] (k a h).
Proof. reflexivity. Qed.

Lemma for_each_emit {H A} (f : A -> Command) (l : list A) (h : H) :
  for_each l (fun x => emit (f x)) h = mkOutcome (Ok tt) h (map f l).
Proof.
  induction l as [|x l IH]; [reflexivity|].
  cbn [for_each]. unfold mbind, M_bind, bind. cbv beta zeta.
  change (emit (f x) h) with (mkOutcome (Ok tt) h [f x]).
  cbn [result host trace]. rewrite IH. reflexivity.
Qed.

Lemma holdings_commands_SetHoldings {A} (sym : A -> Symbol) (w : Q) l :
  holdings_commands (map (fun x => SetHoldings (sym x) w) l)
  = map (fun x => (sym x, w)) l.
Proof. induction l as [|x l IH]; cbn; now rewrite ?IH. Qed.

(** ** The single-security algorithm *)

Module DemonstrationFacts.
Import Demonstration.

Lemma truthy_lookup data s r : data !! s = Some r -> truthy data = true.
Proof.
  intros Hs. unfold truthy. rewrite bool_decide_eq_false_2; [reflexivity|].
  apply map_size_non_empty_iff. intros ->. now rewrite lookup_empty in Hs.
Qed.

Lemma truthy_empty data : truthy data = false <-> data = ∅.
Proof.
  unfold truthy. rewrite negb_false_iff, bool_decide_eq_true.
  apply map_size_empty_iff.
Qed.

Lemma any_invested_false (p : gmap string Q) :
  existsb (fun kv => Invested (snd kv)) (map_to_list p) = false
  <-> holds_nothing p.
Proof.
  rewrite <- not_true_iff_false, existsb_exists. unfold holds_nothing. split.
  - intros Hn s q Hs. apply not_true_iff_false. intros Hq. apply Hn.
    exists (s, q). split; [|exact Hq].
    apply list_elem_of_In, elem_of_map_to_list, Hs.
  - intros Hn [[s q] [Hin Hq]].
    apply list_elem_of_In, elem_of_map_to_list in Hin.
    cbn in Hq. rewrite (Hn _ _ Hin) in Hq. discriminate.
Qed.

Lemma holds_nothing_single (p : gmap string Q) s :
  trades_only p s -> (holds_nothing p <-> holds_position p s = false).
Proof.
  intros Honly. unfold holds_position. split.
  - intros Hn. destruct (p !! s) as [q|] eqn:E; [|reflexivity].
    exact (Hn _ _ E).
  - intros Hs s' q Hq. destruct (decide (s' = s)) as [->|Hne].
    + now rewrite Hq in Hs.
    + exact (Honly _ _ Hne Hq).
Qed.

Lemma weight_of_rule r : rule_weight (TechDiversity r) (weight_of r).
Proof.
  unfold rule_weight, weight_of.
  destruct (Qgtb (TechDiversity r) (1#2)) eqn:E.
  - apply Qgtb_lt in E. split; [reflexivity|]. intros Hn. now destruct Hn.
  - apply Qgtb_not_lt in E. split; [|reflexivity]. intros Hlt. now destruct E.
Qed.

(** What [OnData] does for a delivered record with [PatentsFiled > 0]. *)
Lemma OnData_filed self slice p r :
  Get_GrantedPatentsData slice !! patent_data_symbol self = Some r ->
  0 < PatentsFiled r ->
  OnData self slice p
  = mkOutcome (Ok tt) p
      (if existsb (fun kv => Invested (snd kv)) (map_to_list p) then []
       else [SetHoldings (equity_symbol self) (weight_of r);
             Debug (bought_message self r)]).
Proof.
  intros Hr Hpos. unfold OnData.
  rewrite (truthy_lookup _ _ _ Hr).
  unfold data_getitem. rewrite Hr.
  unfold mbind, M_bind, bind. cbn.
  apply Z.ltb_lt in Hpos. rewrite Hpos.
  unfold Portfolio_Invested, mbind, M_bind, bind. cbn.
  destruct (existsb _ _); reflexivity.
Qed.

(** What [OnData] does for a delivered record with [PatentsFiled <= 0]:
    nothing is emitted, whatever the second test evaluates to. *)
Lemma OnData_not_filed self slice p r :
  Get_GrantedPatentsData slice !! patent_data_symbol self = Some r ->
  PatentsFiled r <= 0 ->
  host (OnData self slice p) = p /\ trace (OnData self slice p) = [] /\
  (result (OnData self slice p) = Ok tt \/
   (0 < CumulativePatents r /\ p !! equity_symbol self = None /\
    result (OnData self slice p)
    = Raise (PortfolioKeyNotFound (equity_symbol self)))).
Proof.
  intros Hr Hle. unfold OnData.
  rewrite (truthy_lookup _ _ _ Hr).
  unfold data_getitem. rewrite Hr.
  unfold mbind, M_bind, bind. cbn.
  apply Z.ltb_ge in Hle. rewrite Hle.
  destruct (0 <? CumulativePatents r) eqn:Ec; cbn.
  - unfold Portfolio_getitem, mbind, M_bind, bind. cbn.
    destruct (p !! equity_symbol self) as [q|] eqn:Ep; cbn.
    + destruct (Invested q); cbn; auto.
    + apply Z.ltb_lt in Ec. auto 6.
  - auto.
Qed.

(** What [OnData] does when the slice has no patent data. *)
Lemma OnData_empty self slice p :
  truthy (Get_GrantedPatentsData slice) = false ->
  OnData self slice p = mkOutcome (Ok tt) p [].
Proof. intros Hf. unfold OnData. now rewrite Hf. Qed.

(** What [OnData] does when the slice has patent data, but none under
    the subscribed symbol. *)
Lemma OnData_missing self slice p :
  truthy (Get_GrantedPatentsData slice) = true ->
  Get_GrantedPatentsData slice !! patent_data_symbol self = None ->
  OnData self slice p
  = mkOutcome (Raise (DataKeyNotFound (patent_data_symbol self))) p [].
Proof.
  intros Ht Hnone. unfold OnData. rewrite Ht.
  unfold data_getitem. rewrite Hnone. reflexivity.
Qed.

Lemma weight_of_cases r : weight_of r = 1%Q \/ weight_of r = (1#2)%Q.
Proof. unfold weight_of. destruct (Qgtb _ _); auto. Qed.

(** C1 (as amended): for every delivered record with [PatentsFiled > 0]
    the weight is 1 when [TechDiversity > 0.5] and 0.5 otherwise, and the
    callback issues the target-holdings command for the subscribed
    equity with exactly that weight if and only if the portfolio holds no
    position in any security ([Portfolio.Invested] is false); otherwise it
    issues no target-holdings command.  When the subscribed equity is the
    only security that can carry a position, this is the same as holding
    no position in that security. *)
Theorem OnData_entry_rule self slice p r :
  Get_GrantedPatentsData slice !! patent_data_symbol self = Some r ->
  0 < PatentsFiled r ->
  let issued := holdings_commands (trace (OnData self slice p)) in
  exists w,
    rule_weight (TechDiversity r) w /\
    result (OnData self slice p) = Ok tt /\
    (issued = [(equity_symbol self, w)] <-> holds_nothing p) /\
    (~ holds_nothing p -> issued = []) /\
    (trades_only p (equity_symbol self) ->
     (issued = [(equity_symbol self, w)]
      <-> holds_position p (equity_symbol self) = false)).
Proof.
  intros Hr Hpos issued. subst issued.
  rewrite (OnData_filed _ _ _ _ Hr Hpos). cbn [trace result].
  exists (weight_of r).
  split; [apply weight_of_rule|]. split; [reflexivity|].
  pose proof (any_invested_false p) as Hany.
  destruct (existsb _ _) eqn:E; cbn [holdings_commands].
  - assert (Hsome : ~ holds_nothing p).
    { intros Hn. apply Hany in Hn. discriminate. }
    split; [split; [discriminate|tauto]|].
    split; [reflexivity|].
    intros Honly. rewrite <- (holds_nothing_single _ _ Honly).
    split; [discriminate|tauto].
  - assert (Hnone : holds_nothing p) by now apply Hany.
    split; [tauto|]. split; [tauto|].
    intros Honly. rewrite <- (holds_nothing_single _ _ Honly). tauto.
Qed.

Lemma OnData_entry_rule_witness :
  let issued :=
    holdings_commands
      (trace (OnData sample_algorithm sample_slice flat_portfolio)) in
  exists w,
    rule_weight (TechDiversity sample_record) w /\
    result (OnData sample_algorithm sample_slice flat_portfolio) = Ok tt /\
    (issued = [("AAPL", w)] <-> holds_nothing flat_portfolio) /\
    (~ holds_nothing flat_portfolio -> issued = []) /\
    (trades_only flat_portfolio "AAPL" ->
     (issued = [("AAPL", w)] <-> holds_position flat_portfolio "AAPL" = false)).
Proof.
  apply (OnData_entry_rule sample_algorithm sample_slice flat_portfolio
           sample_record); reflexivity.
Defined.

(** C1 (as stated) fails: with [PatentsFiled = 5] and no position in the
    subscribed equity, but a position in another security, no
    target-holdings command is issued. *)
Lemma entry_rule_per_security_counterexample :
  ~ entry_rule_per_security sample_algorithm sample_slice mixed_portfolio.
Proof.
  intros Hclaim.
  destruct (Hclaim sample_record eq_refl eq_refl) as [w [_ [_ Hissue]]].
  specialize (Hissue eq_refl). vm_compute in Hissue. discriminate.
Qed.

(** The spec's example: PatentsFiled 5, TechDiversity 0.8, no position. *)
Example OnData_sample :
  trace (OnData sample_algorithm sample_slice flat_portfolio)
  = [SetHoldings "AAPL" 1;
     Debug [Lit "Bought "; PSym "AAPL"; Lit " - Patents Filed: "; PInt 5;
            Lit ", Tech Diversity: "; PFloat (8#10)]].
Proof. vm_compute. reflexivity. Qed.

(** C4: a delivered record with [PatentsFiled = 0] and
    [CumulativePatents > 0], while a position in the subscribed equity is
    held: the callback returns normally and issues no command at all. *)
Theorem OnData_hold self slice p r :
  Get_GrantedPatentsData slice !! patent_data_symbol self = Some r ->
  PatentsFiled r = 0 ->
  0 < CumulativePatents r ->
  holds_position p (equity_symbol self) = true ->
  result (OnData self slice p) = Ok tt /\
  trace (OnData self slice p) = [] /\
  host (OnData self slice p) = p.
Proof.
  intros Hr Hzero Hcum Hheld.
  destruct (OnData_not_filed self slice p r Hr) as [Hh [Ht Hres]]; [lia|].
  split; [|split; assumption].
  destruct Hres as [Hok|[_ [Hnone _]]]; [exact Hok|].
  unfold holds_position in Hheld. rewrite Hnone in Hheld. discriminate.
Qed.

Lemma OnData_hold_witness :
  result (OnData sample_algorithm quiet_slice long_portfolio) = Ok tt /\
  trace (OnData sample_algorithm quiet_slice long_portfolio) = [] /\
  host (OnData sample_algorithm quiet_slice long_portfolio) = long_portfolio.
Proof.
  apply (OnData_hold sample_algorithm quiet_slice long_portfolio quiet_record);
    reflexivity.
Defined.

(** C6: when the slice carries no patent record at all, the callback
    returns normally, issues no command (no target-holdings command, no
    message) and leaves the portfolio as it is. *)
Theorem OnData_no_data self slice p :
  Get_GrantedPatentsData slice = ∅ ->
  OnData self slice p = mkOutcome (Ok tt) p [].
Proof.
  intros Hempty. apply OnData_empty, truthy_empty, Hempty.
Qed.

Lemma OnData_no_data_witness :
  OnData sample_algorithm empty_slice long_portfolio
  = mkOutcome (Ok tt) long_portfolio [].
Proof. apply OnData_no_data. reflexivity. Defined.

(** C7: with a non-empty patent-data collection the record is looked up
    under the subscribed patent-data symbol without a guard: the callback
    raises the data key error exactly when the collection has no record
    for that symbol, and then it has issued no command; it is not a
    no-op. *)
Theorem OnData_unguarded_lookup self slice p :
  Get_GrantedPatentsData slice <> ∅ ->
  (result (OnData self slice p)
     = Raise (DataKeyNotFound (patent_data_symbol self))
   <-> Get_GrantedPatentsData slice !! patent_data_symbol self = None) /\
  (Get_GrantedPatentsData slice !! patent_data_symbol self = None ->
   OnData self slice p
   = mkOutcome (Raise (DataKeyNotFound (patent_data_symbol self))) p [] /\
   OnData self slice p <> mkOutcome (Ok tt) p []).
Proof.
  intros Hne.
  assert (Htruthy : truthy (Get_GrantedPatentsData slice) = true).
  { apply not_false_iff_true. intros Hf. now apply truthy_empty in Hf. }
  pose proof (OnData_missing self slice p Htruthy) as Hmiss.
  split.
  - split.
    + intros Hraise.
      destruct (Get_GrantedPatentsData slice !! patent_data_symbol self)
        as [r|] eqn:Hr; [|reflexivity].
      exfalso. destruct (Z.lt_ge_cases 0 (PatentsFiled r)) as [Hpos|Hle].
      * rewrite (OnData_filed _ _ _ _ Hr Hpos) in Hraise. discriminate.
      * destruct (OnData_not_filed self slice p r Hr Hle)
          as [_ [_ [Hok|[_ [_ Hpf]]]]]; congruence.
    + intros Hnone. now rewrite (Hmiss Hnone).
  - intros Hnone. rewrite (Hmiss Hnone). split; [reflexivity|discriminate].
Qed.

Lemma OnData_unguarded_lookup_witness :
  OnData sample_algorithm other_slice flat_portfolio
  = mkOutcome (Raise (DataKeyNotFound "AAPL.GrantedPatentsData"))
      flat_portfolio [].
Proof.
  assert (Hne : Get_GrantedPatentsData other_slice <> ∅).
  { intros Heq.
    assert (Hl : Get_GrantedPatentsData other_slice !! "MSFT.GrantedPatentsData"
                 = Some sample_record) by reflexivity.
    rewrite Heq in Hl. discriminate. }
  exact (proj1 (proj2 (OnData_unguarded_lookup sample_algorithm other_slice
                         flat_portfolio Hne) eq_refl)).
Defined.

(** C9: in one callback the single-security algorithm issues at most
    one target-holdings command; it targets the subscribed equity and its
    weight is exactly 0.5 or exactly 1.0.  The other two callbacks issue
    none. *)
Theorem OnData_holdings_invariant self slice p :
  let issued := holdings_commands (trace (OnData self slice p)) in
  (length issued <= 1)%nat /\
  (forall s w, In (s, w) issued ->
     s = equity_symbol self /\ (w = 1%Q \/ w = (1#2)%Q)) /\
  (forall ev, holdings_commands (trace (OnOrderEvent self ev p)) = []) /\
  (forall e d, holdings_commands (trace (Initialize e d p)) = []).
Proof.
  intros issued. subst issued.
  split; [|split]; [| |split].
  3: { intros ev. unfold OnOrderEvent. now destruct (is_Filled _). }
  3: { reflexivity. }
  all: destruct (truthy (Get_GrantedPatentsData slice)) eqn:Ht;
    [|rewrite (OnData_empty _ _ _ Ht); cbn; try lia; intros ? ? []].
  all: destruct (Get_GrantedPatentsData slice !! patent_data_symbol self)
      as [r|] eqn:Hr;
    [|rewrite (OnData_missing _ _ _ Ht Hr); cbn; try lia; intros ? ? []].
  all: destruct (Z.lt_ge_cases 0 (PatentsFiled r)) as [Hpos|Hle].
  - rewrite (OnData_filed _ _ _ _ Hr Hpos). cbn [trace].
    destruct (existsb _ _); cbn; lia.
  - destruct (OnData_not_filed self slice p r Hr Hle) as [_ [-> _]].
    cbn. lia.
  - rewrite (OnData_filed _ _ _ _ Hr Hpos). cbn [trace].
    destruct (existsb _ _); cbn; [intros ? ? []|].
    intros s w [Heq|[]]. injection Heq as <- <-.
    split; [reflexivity|apply weight_of_cases].
  - destruct (OnData_not_filed self slice p r Hr Hle) as [_ [-> _]].
    intros ? ? [].
Qed.

(** Every piece of an f-string occurs in its text. *)
Lemma append_assoc (a b c : string) : (a +:+ b) +:+ c = a +:+ b +:+ c.
Proof.
  induction a as [|x a IH]; [reflexivity|].
  change (String x ((a +:+ b) +:+ c) = String x (a +:+ b +:+ c)).
  now rewrite IH.
Qed.

Lemma render_contains str_float piece msg :
  In piece msg ->
  contains (render_piece str_float piece) (render str_float msg).
Proof.
  induction msg as [|q msg IH]; intros Hin; [destruct Hin|].
  destruct Hin as [->|Hin].
  - exists "", (render str_float msg). reflexivity.
  - destruct (IH Hin) as [pre [post Heq]].
    exists (render_piece str_float q +:+ pre), post.
    cbn [render]. rewrite Heq. symmetry. apply append_assoc.
Qed.

(** C10: for an order event whose status is [Filled] the callback emits
    exactly one message, whose text contains the security identifier and
    the filled quantity; for every other status it emits nothing. *)
Theorem OnOrderEvent_fill_message {H} (str_float : Q -> string)
    self orderEvent (h : H) :
  (Status orderEvent = Filled ->
   exists msg,
     trace (OnOrderEvent self orderEvent h) = [Debug msg] /\
     contains (OrderSymbol orderEvent) (render str_float msg) /\
     contains (str_float (FillQuantity orderEvent)) (render str_float msg)) /\
  (Status orderEvent <> Filled ->
   trace (OnOrderEvent self orderEvent h) = []).
Proof.
  unfold OnOrderEvent. split.
  - intros ->. exists (filled_message orderEvent).
    split; [reflexivity|]. split.
    + apply (render_contains str_float (PSym (OrderSymbol orderEvent))).
      cbn. auto.
    + apply (render_contains str_float (PFloat (FillQuantity orderEvent))).
      cbn. auto.
  - intros Hne. destruct (Status orderEvent); try reflexivity.
    now destruct Hne.
Qed.

Lemma OnOrderEvent_fill_message_witness :
  exists msg,
    trace (OnOrderEvent sample_algorithm sample_fill flat_portfolio)
      = [Debug msg] /\
    contains "AAPL" (render (fun _ => "100.0") msg) /\
    contains "100.0" (render (fun _ => "100.0") msg).
Proof.
  exact (proj1 (OnOrderEvent_fill_message (fun _ => "100.0")
                  sample_algorithm sample_fill flat_portfolio) eq_refl).
Defined.

End DemonstrationFacts.

(** ** The universe-selection algorithm *)

Module UniverseFacts.
Import Universe.

Lemma selection_criteria_spec d :
  selection_criteria d = true <-> meets_criteria d.
Proof.
  unfold selection_criteria, meets_criteria.
  rewrite !andb_true_iff, !Z.ltb_lt, Qgtb_lt. tauto.
Qed.

Lemma read_list_lookup (h : gmap positive (list GrantedPatentsData)) r l :
  h !! r = Some l -> read_list r h = mkOutcome (Ok l) h [].
Proof.
  intros Hr. unfold read_list, mbind, M_bind, bind, get.
  cbn [result host trace]. rewrite Hr. reflexivity.
Qed.

Lemma new_list_run (h : gmap positive (list GrantedPatentsData)) l :
  new_list l h
  = mkOutcome (Ok (fresh (dom h))) (<[fresh (dom h) := l]> h) [].
Proof. reflexivity. Qed.

Lemma sort_in_place_run (h : gmap positive (list GrantedPatentsData))
    r key reverse l :
  h !! r = Some l ->
  sort_in_place r key reverse h
  = mkOutcome (Ok tt) (<[r := list_sort key reverse l]> h) [].
Proof.
  intros Hr. unfold sort_in_place.
  rewrite (bind_Ok _ _ _ _ _ _ (read_list_lookup _ _ _ Hr)). reflexivity.
Qed.

(** The result, final store and trace of [UniverseSelection] on a batch. *)
Lemma UniverseSelection_run (h : gmap positive (list GrantedPatentsData))
    data batch :
  h !! data = Some batch ->
  let sorted := list_sort TechDiversity true
                  (List.filter selection_criteria batch) in
  UniverseSelection data h
  = mkOutcome (Ok (map datum_Symbol sorted))
      (<[fresh (dom h) := sorted]> h)
      (map (fun datum => Log (datum_message datum)) batch).
Proof.
  intros Hdata sorted. unfold UniverseSelection.
  rewrite (bind_Ok _ _ _ _ _ _ (read_list_lookup _ _ _ Hdata)).
  rewrite (bind_Ok _ _ _ _ _ _ (for_each_emit _ _ _)).
  rewrite (bind_Ok _ _ _ _ _ _ (read_list_lookup _ _ _ Hdata)).
  rewrite (bind_Ok _ _ _ _ _ _ (new_list_run _ _)).
  rewrite (bind_Ok _ _ _ _ _ _
             (sort_in_place_run _ _ _ true _ (lookup_insert_eq _ _ _))).
  rewrite insert_insert_eq.
  rewrite (bind_Ok _ _ _ _ _ _ (read_list_lookup _ _ _ (lookup_insert_eq _ _ _))).
  unfold prepend. cbn [mret M_ret result host trace app].
  now rewrite !app_nil_r.
Qed.

(** The sorted selection meets its specification ... *)
Lemma list_sort_selection batch :
  selection_of batch
    (list_sort TechDiversity true (List.filter selection_criteria batch)).
Proof.
  split.
  - apply list_sort_reverse_perm.
  - apply list_sort_reverse_descending.
  - intros k. apply list_sort_reverse_stable.
Qed.

(** ... and the specification has no other solution. *)
Lemma selection_of_unique batch s1 s2 :
  selection_of batch s1 -> selection_of batch s2 -> s1 = s2.
Proof.
  intros [_ Hd1 Hs1] [_ Hd2 Hs2].
  apply (descending_stable_unique TechDiversity); [assumption..|].
  intros k. exact (eq_trans (Hs1 k) (eq_sym (Hs2 k))).
Qed.

Lemma selection_of_members batch s d :
  selection_of batch s -> (In d s <-> In d batch /\ meets_criteria d).
Proof.
  intros [Hperm _ _]. rewrite <- selection_criteria_spec, <- List.filter_In.
  split; apply Permutation_in; [exact Hperm|symmetry; exact Hperm].
Qed.

(** C2: for every batch the selector returns the identifiers of a list
    [s] of records that consists exactly of the records of the batch
    meeting the three criteria, is ordered by [TechDiversity] descending,
    and keeps records of equal score in their input order. *)
Theorem UniverseSelection_selects (h : gmap positive (list GrantedPatentsData))
    data batch :
  h !! data = Some batch ->
  exists s,
    result (UniverseSelection data h) = Ok (map datum_Symbol s) /\
    selection_of batch s /\
    (forall d, In d s <-> In d batch /\ meets_criteria d).
Proof.
  intros Hdata. eexists. rewrite (UniverseSelection_run _ _ _ Hdata).
  split; [reflexivity|]. split; [apply list_sort_selection|].
  intros d. apply selection_of_members, list_sort_selection.
Qed.

Lemma UniverseSelection_selects_witness :
  exists s,
    result (UniverseSelection 1%positive sample_heap)
      = Ok (map datum_Symbol s) /\
    selection_of sample_batch s /\
    (forall d, In d s <-> In d sample_batch /\ meets_criteria d).
Proof.
  apply (UniverseSelection_selects sample_heap 1%positive sample_batch).
  reflexivity.
Defined.

(** The spec's example, extended with a tie: B fails [Patents90d > 0];
    A and D have the same score and stay in input order. *)
Example UniverseSelection_sample :
  result (UniverseSelection 1%positive sample_heap) = Ok ["A"; "D"; "C"].
Proof. vm_compute. reflexivity. Qed.

(** C5: running the selection a second time on the same batch, in the
    store the first run left behind, returns the same ordered sequence of
    identifiers (and emits the same log lines); the first run leaves the
    batch as it was. *)
Theorem UniverseSelection_rerun (h : gmap positive (list GrantedPatentsData))
    data batch :
  h !! data = Some batch ->
  let first := UniverseSelection data h in
  let second := UniverseSelection data (host first) in
  host first !! data = Some batch /\
  (exists out, result first = Ok out /\ result second = Ok out) /\
  trace second = trace first.
Proof.
  intros Hdata first second.
  assert (Hkept : host first !! data = Some batch).
  { subst first. rewrite (UniverseSelection_run _ _ _ Hdata). cbn [host].
    rewrite lookup_insert_ne; [exact Hdata|].
    intros Heq. apply (is_fresh (dom h)). rewrite Heq.
    apply elem_of_dom. now exists batch. }
  split; [exact Hkept|].
  subst second. rewrite (UniverseSelection_run _ _ _ Hkept).
  subst first. rewrite (UniverseSelection_run _ _ _ Hdata).
  cbn [result trace]. split; [|reflexivity]. eexists. split; reflexivity.
Qed.

Lemma UniverseSelection_rerun_witness :
  let first := UniverseSelection 1%positive sample_heap in
  let second := UniverseSelection 1%positive (host first) in
  host first !! 1%positive = Some sample_batch /\
  (exists out, result first = Ok out /\ result second = Ok out) /\
  trace second = trace first.
Proof.
  apply (UniverseSelection_rerun sample_heap 1%positive sample_batch).
  reflexivity.
Defined.

(** Selecting again among the selected records changes nothing. *)
Lemma selection_fixpoint batch :
  let s := list_sort TechDiversity true
             (List.filter selection_criteria batch) in
  list_sort TechDiversity true (List.filter selection_criteria s) = s.
Proof.
  intros s.
  assert (Hall : List.filter selection_criteria s = s).
  { apply forallb_filter_id, forallb_forall. intros d Hd.
    apply (Permutation_in _ (list_sort_reverse_perm TechDiversity _)) in Hd.
    now apply List.filter_In in Hd. }
  rewrite Hall.
  apply (descending_stable_unique TechDiversity).
  - apply list_sort_reverse_descending.
  - apply list_sort_reverse_descending.
  - intros k. apply list_sort_reverse_stable.
Qed.

(** The body of [OnSecuritiesChanged], run. *)
Lemma OnSecuritiesChanged_run {H} changes (h : H) :
  OnSecuritiesChanged changes h
  = mkOutcome (Ok tt) h
      (Log (changed_message changes)
       :: map (fun security =>
                 SetHoldings (security_Symbol security)
                   (double_quotient (len (AddedSecurities changes))))
            (AddedSecurities changes)).
Proof.
  unfold OnSecuritiesChanged, mbind, M_bind, bind.
  change (emit (Log (changed_message changes)) h)
    with (mkOutcome (Ok tt) h [Log (changed_message changes)]).
  cbn [result host trace].
  destruct (AddedSecurities changes) as [|security added] eqn:E.
  - reflexivity.
  - change (0 <? len (security :: added)) with true. cbv iota zeta.
    now rewrite for_each_emit.
Qed.

(** The quotient is exact for a few small lengths, and not for 3. *)
Example double_quotient_samples :
  double_quotient 1 = 1%Q /\ double_quotient 2 = (1#2)%Q /\
  double_quotient 4 = (1#4)%Q /\
  double_quotient 3 = 6004799503160661 # 18014398509481984 /\
  ~ (double_quotient 3 == 1#3)%Q.
Proof. vm_compute. repeat split; discriminate. Qed.

(** C3 (as amended): the target-holdings commands issued on a universe
    change are exactly one per added security, in order, all with the same
    weight, the double [1.0 / N] where [N] is the number of added
    securities; with [N = 0] the only command is the log line.  Every
    commanded symbol is that of an added security, so a removed security
    receives none. *)
Theorem OnSecuritiesChanged_equal_weight {H} changes (h : H) :
  let added := AddedSecurities changes in
  let N := length added in
  let issued := holdings_commands (trace (OnSecuritiesChanged changes h)) in
  issued = map (fun security =>
                  (security_Symbol security, double_quotient (Z.of_nat N)))
             added /\
  (N = 0%nat ->
   trace (OnSecuritiesChanged changes h) = [Log (changed_message changes)]) /\
  (forall s w, In (s, w) issued -> In s (map security_Symbol added)).
Proof.
  intros added N issued.
  assert (Hissued : issued = map (fun security =>
                      (security_Symbol security, double_quotient (Z.of_nat N)))
                      added).
  { subst issued. rewrite OnSecuritiesChanged_run. cbn [trace holdings_commands].
    now rewrite (holdings_commands_SetHoldings security_Symbol). }
  split; [exact Hissued|]. split.
  - intros HN. rewrite OnSecuritiesChanged_run.
    fold added. destruct added; [reflexivity|discriminate].
  - intros s w Hin. rewrite Hissued in Hin.
    apply in_map_iff in Hin as [security [Heq Hin]].
    injection Heq as <- _. apply in_map, Hin.
Qed.

Lemma OnSecuritiesChanged_equal_weight_witness :
  holdings_commands (trace (OnSecuritiesChanged sample_changes sample_heap))
  = [("A", 6004799503160661 # 18014398509481984);
     ("C", 6004799503160661 # 18014398509481984);
     ("D", 6004799503160661 # 18014398509481984)].
Proof.
  exact (proj1 (OnSecuritiesChanged_equal_weight sample_changes sample_heap)).
Defined.

(** C3 (as stated) fails: with three added securities the weight issued
    is the double nearest to 1/3, which is not the rational 1/3. *)
Lemma weights_exactly_one_over_N_counterexample :
  ~ weights_exactly_one_over_N sample_changes sample_heap.
Proof.
  intros Hclaim.
  destruct (Hclaim (mkSecurity "A") (or_introl eq_refl)) as [w [Hin Hw]].
  vm_compute in Hin.
  destruct Hin as [E|[E|[E|[]]]]; try discriminate E.
  injection E as <-. vm_compute in Hw. discriminate Hw.
Qed.

Lemma not_warning_historical (history : list (list GrantedPatentsData)) :
  List.filter is_warning
    (map (fun d => Log (historical_message (len d))) history) = [] /\
  List.filter (fun c => negb (is_warning c))
    (map (fun d => Log (historical_message (len d))) history)
  = map (fun d => Log (historical_message (len d))) history.
Proof.
  induction history as [|d history [IH1 IH2]]; [split; reflexivity|].
  cbn [map List.filter]. 
  change (is_warning (Log (historical_message (len d)))) with false.
  cbn [negb]. now rewrite IH1, IH2.
Qed.

(** The body of [Initialize], run. *)
Lemma Initialize_run {H} history (h : H) :
  Initialize history h
  = mkOutcome (Ok tt) h
      (setup_commands
       ++ (if negb (len history =? 1)
           then [Log (warning_message (len history))] else [])
       ++ map (fun d => Log (historical_message (len d))) history).
Proof.
  unfold Initialize. rewrite !bind_emit.
  destruct (negb (len history =? 1));
    rewrite ?bind_emit, ?bind_mret, for_each_emit; reflexivity.
Qed.

(** C8: [Initialize] emits the warning line exactly when the history has
    a number of entries other than 1; the warning is the only difference:
    the remaining commands are the set-up commands followed by one log
    line per history entry, in both cases, and [Initialize] returns
    normally without touching the host state. *)
Theorem Initialize_history_check {H} history (h : H) :
  let t := trace (Initialize history h) in
  (length history <> 1%nat ->
   List.filter is_warning t = [Log (warning_message (len history))]) /\
  (length history = 1%nat -> List.filter is_warning t = []) /\
  List.filter (fun c => negb (is_warning c)) t
  = setup_commands ++ map (fun d => Log (historical_message (len d))) history /\
  result (Initialize history h) = Ok tt /\
  host (Initialize history h) = h.
Proof.
  intros t. subst t. rewrite Initialize_run. cbn [result host trace].
  destruct (not_warning_historical history) as [Hw Hn].
  rewrite !List.filter_app, Hw, Hn.
  assert (Hlen : (len history =? 1) = bool_decide (length history = 1%nat)).
  { unfold len. destruct (Z.eqb_spec (Z.of_nat (length history)) 1) as [E|E].
    - symmetry. apply bool_decide_eq_true. lia.
    - symmetry. apply bool_decide_eq_false. lia. }
  rewrite Hlen.
  split; [|split; [|split; [|split; reflexivity]]].
  - intros Hne. rewrite bool_decide_eq_false_2 by exact Hne. reflexivity.
  - intros Heq. rewrite bool_decide_eq_true_2 by exact Heq. reflexivity.
  - case_bool_decide; reflexivity.
Qed.

Lemma Initialize_history_check_witness :
  List.filter is_warning (trace (Initialize [] sample_heap))
  = [Log (warning_message 0)].
Proof.
  apply (proj1 (Initialize_history_check [] sample_heap)). discriminate.
Defined.

End UniverseFacts.

(** * Further properties of the single-security algorithm *)

Module DemonstrationMore.
Import Demonstration DemonstrationFacts.

(** The exact outcome of [OnData] for a delivered record with
    [PatentsFiled <= 0]. *)
Lemma OnData_not_filed_outcome self slice p r :
  Get_GrantedPatentsData slice !! patent_data_symbol self = Some r ->
  PatentsFiled r <= 0 ->
  OnData self slice p
  = mkOutcome
      (if 0 <? CumulativePatents r then
         match p !! equity_symbol self with
         | Some _ => Ok tt
         | None => Raise (PortfolioKeyNotFound (equity_symbol self))
         end
       else Ok tt) p [].
Proof.
  intros Hr Hle. unfold OnData.
  rewrite (truthy_lookup _ _ _ Hr).
  unfold data_getitem. rewrite Hr.
  unfold mbind, M_bind, bind. cbn.
  apply Z.ltb_ge in Hle. rewrite Hle.
  destruct (0 <? CumulativePatents r); cbn; [|reflexivity].
  unfold Portfolio_getitem, mbind, M_bind, bind. cbn.
  destruct (p !! equity_symbol self) as [q|]; cbn; [|reflexivity].
  destruct (Invested q); reflexivity.
Qed.

Lemma any_invested_true (p : gmap string Q) s q :
  p !! s = Some q -> Invested q = true ->
  existsb (fun kv => Invested (snd kv)) (map_to_list p) = true.
Proof.
  intros Hs Hq. apply not_false_iff_true. intros Hf.
  apply any_invested_false in Hf. rewrite (Hf _ _ Hs) in Hq. discriminate.
Qed.

(** X1: once the portfolio holds a position in some security, [OnData]
    emits nothing, whatever the slice: no target-holdings command and no
    message.  The algorithm never adds to, reduces or closes a position. *)
Theorem OnData_invested_silent self slice p s q :
  p !! s = Some q -> Invested q = true ->
  trace (OnData self slice p) = [] /\ host (OnData self slice p) = p.
Proof.
  intros Hs Hq.
  destruct (truthy (Get_GrantedPatentsData slice)) eqn:Ht;
    [|now rewrite (OnData_empty _ _ _ Ht)].
  destruct (Get_GrantedPatentsData slice !! patent_data_symbol self)
    as [r|] eqn:Hr; [|now rewrite (OnData_missing _ _ _ Ht Hr)].
  destruct (Z.lt_ge_cases 0 (PatentsFiled r)) as [Hpos|Hle].
  - rewrite (OnData_filed _ _ _ _ Hr Hpos).
    now rewrite (any_invested_true _ _ _ Hs Hq).
  - now rewrite (OnData_not_filed_outcome _ _ _ _ Hr Hle).
Qed.

Lemma OnData_invested_silent_witness :
  trace (OnData sample_algorithm sample_slice long_portfolio) = [] /\
  host (OnData sample_algorithm sample_slice long_portfolio) = long_portfolio.
Proof.
  apply (OnData_invested_silent sample_algorithm sample_slice long_portfolio
           "AAPL" 100%Q); reflexivity.
Defined.

(** X2: a callback either emits nothing, or emits exactly the
    target-holdings command followed by one message; the latter happens
    only for a delivered record with [PatentsFiled > 0] in a portfolio that
    holds nothing, and the text of the message contains the equity symbol,
    the number of patents filed and the score. *)
Theorem OnData_buy_is_logged (str_float : Q -> string) self slice p :
  trace (OnData self slice p) = [] \/
  exists r msg,
    Get_GrantedPatentsData slice !! patent_data_symbol self = Some r /\
    0 < PatentsFiled r /\ holds_nothing p /\
    trace (OnData self slice p)
      = [SetHoldings (equity_symbol self) (weight_of r); Debug msg] /\
    contains (equity_symbol self) (render str_float msg) /\
    contains (pretty (PatentsFiled r)) (render str_float msg) /\
    contains (str_float (TechDiversity r)) (render str_float msg).
Proof.
  destruct (truthy (Get_GrantedPatentsData slice)) eqn:Ht;
    [|left; now rewrite (OnData_empty _ _ _ Ht)].
  destruct (Get_GrantedPatentsData slice !! patent_data_symbol self)
    as [r|] eqn:Hr; [|left; now rewrite (OnData_missing _ _ _ Ht Hr)].
  destruct (Z.lt_ge_cases 0 (PatentsFiled r)) as [Hpos|Hle];
    [|left; now rewrite (OnData_not_filed_outcome _ _ _ _ Hr Hle)].
  rewrite (OnData_filed _ _ _ _ Hr Hpos). cbn [trace].
  destruct (existsb _ _) eqn:E; [now left|right].
  exists r, (bought_message self r).
  split; [reflexivity|]. split; [exact Hpos|].
  split; [now apply any_invested_false|]. split; [reflexivity|].
  split; [|split].
  - apply (render_contains str_float (PSym (equity_symbol self))).
    cbn. auto 10.
  - apply (render_contains str_float (PInt (PatentsFiled r))).
    cbn. auto 10.
  - apply (render_contains str_float (PFloat (TechDiversity r))).
    cbn. auto 10.
Qed.

(** X3: [OnData] reads the slice only through the record stored under the
    subscribed patent-data symbol: two slices that carry the same record
    there give the same outcome, whatever else they contain. *)
Theorem OnData_other_records_ignored self slice1 slice2 p r :
  Get_GrantedPatentsData slice1 !! patent_data_symbol self = Some r ->
  Get_GrantedPatentsData slice2 !! patent_data_symbol self = Some r ->
  OnData self slice1 p = OnData self slice2 p.
Proof.
  intros H1 H2. unfold OnData.
  rewrite (truthy_lookup _ _ _ H1), (truthy_lookup _ _ _ H2).
  unfold data_getitem. now rewrite H1, H2.
Qed.

Lemma OnData_other_records_ignored_witness :
  OnData sample_algorithm sample_slice flat_portfolio
  = OnData sample_algorithm crowded_slice flat_portfolio.
Proof.
  apply (OnData_other_records_ignored sample_algorithm sample_slice
           crowded_slice flat_portfolio sample_record); reflexivity.
Defined.

(** X4: the per-security portfolio lookup of the hold branch is reached
    only after [PatentsFiled > 0] has failed and [CumulativePatents > 0]
    has succeeded: [OnData] raises the portfolio key error exactly for a
    delivered record with [PatentsFiled <= 0] and [CumulativePatents > 0]
    when the portfolio does not know the subscribed equity; it never
    raises it for another symbol. *)
Theorem OnData_portfolio_error self slice p s :
  result (OnData self slice p) = Raise (PortfolioKeyNotFound s)
  <-> s = equity_symbol self /\
      exists r,
        Get_GrantedPatentsData slice !! patent_data_symbol self = Some r /\
        PatentsFiled r <= 0 /\ 0 < CumulativePatents r /\
        p !! equity_symbol self = None.
Proof.
  split.
  - intros Hraise.
    destruct (truthy (Get_GrantedPatentsData slice)) eqn:Ht;
      [|rewrite (OnData_empty _ _ _ Ht) in Hraise; discriminate].
    destruct (Get_GrantedPatentsData slice !! patent_data_symbol self)
      as [r|] eqn:Hr;
      [|rewrite (OnData_missing _ _ _ Ht Hr) in Hraise; discriminate].
    destruct (Z.lt_ge_cases 0 (PatentsFiled r)) as [Hpos|Hle];
      [rewrite (OnData_filed _ _ _ _ Hr Hpos) in Hraise; discriminate|].
    rewrite (OnData_not_filed_outcome _ _ _ _ Hr Hle) in Hraise.
    cbn [result] in Hraise.
    destruct (0 <? CumulativePatents r) eqn:Ec; [|discriminate].
    destruct (p !! equity_symbol self) eqn:Ep; [discriminate|].
    injection Hraise as <-. split; [reflexivity|].
    exists r. apply Z.ltb_lt in Ec. auto.
  - intros [-> [r [Hr [Hle [Hcum Hp]]]]].
    rewrite (OnData_not_filed_outcome _ _ _ _ Hr Hle). cbn [result].
    apply Z.ltb_lt in Hcum. now rewrite Hcum, Hp.
Qed.

Lemma OnData_portfolio_error_witness :
  result (OnData sample_algorithm quiet_slice foreign_portfolio)
  = Raise (PortfolioKeyNotFound "AAPL").
Proof.
  apply (OnData_portfolio_error sample_algorithm quiet_slice foreign_portfolio).
  split; [reflexivity|]. exists quiet_record.
  repeat split; try reflexivity; discriminate.
Defined.

(** X5: the weight is the low one up to and including a score of 0.5 (the
    comparison is strict), and it never decreases when the score grows. *)
Theorem weight_of_monotone r1 r2 :
  ((TechDiversity r1 <= 1#2)%Q -> weight_of r1 = (1#2)%Q) /\
  ((TechDiversity r1 <= TechDiversity r2)%Q ->
   (weight_of r1 <= weight_of r2)%Q).
Proof.
  unfold weight_of. split.
  - intros Hle. destruct (Qgtb (TechDiversity r1) (1#2)) eqn:E; [|reflexivity].
    apply Qgtb_lt in E. exfalso. exact (Qlt_not_le _ _ E Hle).
  - intros Hle.
    destruct (Qgtb (TechDiversity r1) (1#2)) eqn:E1,
             (Qgtb (TechDiversity r2) (1#2)) eqn:E2;
      try (apply Qle_refl); [|discriminate].
    apply Qgtb_lt in E1. apply Qgtb_not_lt in E2. exfalso. apply E2.
    eapply Qlt_le_trans; eassumption.
Qed.

Lemma weight_of_monotone_witness :
  (weight_of quiet_record <= weight_of sample_record)%Q.
Proof.
  apply (proj2 (weight_of_monotone quiet_record sample_record)).
  discriminate.
Defined.

End DemonstrationMore.

(** * Further properties of the universe-selection algorithm *)

Module UniverseMore.
Import Universe UniverseFacts.

Lemma holdings_commands_Log {A} (msg : A -> FString) l :
  holdings_commands (map (fun x => Log (msg x)) l) = [].
Proof. induction l as [|x l IH]; cbn; now rewrite ?IH. Qed.

Lemma Permutation_List_filter {A} (f : A -> bool) l1 l2 :
  Permutation l1 l2 -> Permutation (List.filter f l1) (List.filter f l2).
Proof.
  induction 1 as [|x l1 l2 _ IH|x y l|l1 l2 l3 _ IH1 _ IH2]; cbn.
  - constructor.
  - destruct (f x); [now constructor|exact IH].
  - destruct (f x), (f y); try reflexivity. apply perm_swap.
  - now transitivity (List.filter f l2).
Qed.

(** A list of records that all meet the criteria, most diverse first, is
    left as it is by the filter and the sort. *)
Lemma selected_list_fixed s :
  Forall (fun d => selection_criteria d = true) s ->
  StronglySorted (descending TechDiversity) s ->
  list_sort TechDiversity true (List.filter selection_criteria s) = s.
Proof.
  intros Hall Hsorted.
  rewrite forallb_filter_id by (apply forallb_forall, List.Forall_forall, Hall).
  apply (descending_stable_unique TechDiversity).
  - apply list_sort_reverse_descending.
  - exact Hsorted.
  - intros k. apply list_sort_reverse_stable.
Qed.

(** X6: the selector writes one log line per candidate, selected or not,
    in input order, and issues no target-holdings command. *)
Theorem UniverseSelection_logs_all (h : gmap positive (list GrantedPatentsData))
    data batch :
  h !! data = Some batch ->
  trace (UniverseSelection data h)
    = map (fun datum => Log (datum_message datum)) batch /\
  length (trace (UniverseSelection data h)) = length batch /\
  holdings_commands (trace (UniverseSelection data h)) = [].
Proof.
  intros Hdata. rewrite (UniverseSelection_run _ _ _ Hdata). cbn [trace].
  split; [reflexivity|]. split.
  - apply length_map.
  - apply holdings_commands_Log.
Qed.

Lemma UniverseSelection_logs_all_witness :
  length (trace (UniverseSelection 1%positive sample_heap)) = 4%nat.
Proof.
  apply (proj1 (proj2 (UniverseSelection_logs_all sample_heap 1%positive
                         sample_batch eq_refl))).
Defined.

(** X7: the selector never returns more identifiers than it was given
    candidates, and it returns the empty list exactly when no candidate
    meets all three criteria (in particular for an empty batch). *)
Theorem UniverseSelection_empty_iff (h : gmap positive (list GrantedPatentsData))
    data batch :
  h !! data = Some batch ->
  exists out,
    result (UniverseSelection data h) = Ok out /\
    (length out <= length batch)%nat /\
    (out = [] <-> forall d, In d batch -> ~ meets_criteria d).
Proof.
  intros Hdata. rewrite (UniverseSelection_run _ _ _ Hdata). cbn [result].
  eexists. split; [reflexivity|].
  pose proof (list_sort_reverse_perm TechDiversity
                (List.filter selection_criteria batch)) as Hperm.
  split.
  - rewrite length_map, (Permutation_length Hperm). apply List.filter_length_le.
  - split.
    + intros Hnil d Hd Hmeets.
      apply map_eq_nil in Hnil. rewrite Hnil in Hperm.
      apply Permutation_nil in Hperm.
      assert (Hin : In d (List.filter selection_criteria batch)).
      { apply List.filter_In. split; [exact Hd|].
        now apply selection_criteria_spec. }
      rewrite Hperm in Hin. destruct Hin.
    + intros Hnone.
      assert (Hnil : List.filter selection_criteria batch = []).
      { destruct (List.filter selection_criteria batch) as [|d l] eqn:E;
          [reflexivity|].
        assert (Hin : In d (List.filter selection_criteria batch))
          by (rewrite E; now left).
        apply List.filter_In in Hin as [Hd Hc].
        apply selection_criteria_spec in Hc. now destruct (Hnone d Hd). }
      now rewrite Hnil.
Qed.

Lemma UniverseSelection_empty_iff_witness :
  exists out,
    result (UniverseSelection 1%positive sample_heap) = Ok out /\
    (length out <= length sample_batch)%nat /\
    (out = [] <-> forall d, In d sample_batch -> ~ meets_criteria d).
Proof.
  apply (UniverseSelection_empty_iff sample_heap 1%positive sample_batch).
  reflexivity.
Defined.

(** X8: the order of the candidates matters for ties only.  Two batches
    with the same records in any order give the same identifiers up to
    order, and the very same sequence when no two selected records share a
    score. *)
Theorem UniverseSelection_order_independent
    (h1 h2 : gmap positive (list GrantedPatentsData)) data1 data2 batch1 batch2 :
  h1 !! data1 = Some batch1 ->
  h2 !! data2 = Some batch2 ->
  Permutation batch1 batch2 ->
  exists out1 out2,
    result (UniverseSelection data1 h1) = Ok out1 /\
    result (UniverseSelection data2 h2) = Ok out2 /\
    Permutation out1 out2 /\
    (distinct_scores (List.filter selection_criteria batch1) -> out1 = out2).
Proof.
  intros H1 H2 Hperm.
  rewrite (UniverseSelection_run _ _ _ H1), (UniverseSelection_run _ _ _ H2).
  cbn [result]. eexists. eexists.
  split; [reflexivity|]. split; [reflexivity|].
  pose proof (Permutation_List_filter selection_criteria _ _ Hperm) as Hsel.
  split.
  - apply Permutation_map.
    rewrite !list_sort_reverse_perm. exact Hsel.
  - intros Hdistinct. f_equal.
    apply (descending_stable_unique TechDiversity);
      [apply list_sort_reverse_descending..|].
    intros k. rewrite !list_sort_reverse_stable.
    pose proof (Permutation_List_filter (same_key TechDiversity k) _ _ Hsel)
      as Hk.
    specialize (Hdistinct k). unfold with_score in Hdistinct.
    destruct (List.filter (same_key TechDiversity k)
                (List.filter selection_criteria batch1)) as [|a [|b l]].
    + now apply Permutation_nil in Hk.
    + now apply Permutation_length_1_inv in Hk.
    + cbn in Hdistinct. lia.
Qed.

Lemma UniverseSelection_order_independent_witness :
  result (UniverseSelection 7%positive shuffled_heap)
  = result (UniverseSelection 1%positive
              {[ 1%positive := [record_A; record_B; record_C] ]}).
Proof.
  assert (H1 : shuffled_heap !! 7%positive = Some shuffled_batch)
    by reflexivity.
  assert (H2 : ({[ 1%positive := [record_A; record_B; record_C] ]}
                  : gmap positive (list GrantedPatentsData)) !! 1%positive
               = Some [record_A; record_B; record_C]) by reflexivity.
  assert (Hperm : Permutation shuffled_batch [record_A; record_B; record_C]).
  { apply (perm_trans (l' := [record_B; record_C; record_A])).
    - apply perm_swap.
    - apply (perm_trans (l' := [record_B; record_A; record_C])).
      + apply perm_skip, perm_swap.
      + apply perm_swap. }
  destruct (UniverseSelection_order_independent _ _ _ _ _ _ H1 H2 Hperm)
    as [out1 [out2 [-> [-> [_ Heq]]]]].
  f_equal. apply Heq. intros k. unfold with_score.
  change (List.filter selection_criteria shuffled_batch)
    with [record_C; record_A].
  cbn [List.filter].
  destruct (same_key TechDiversity k record_C) eqn:EC,
           (same_key TechDiversity k record_A) eqn:EA; cbn [length]; try lia.
  exfalso. apply Qeq_bool_iff in EC, EA.
  rewrite <- EA in EC. discriminate EC.
Defined.

(** X9: the selection is a fixed point.  Given the selected records of
    some batch, in their output order, as the new batch, the selector
    returns the identifiers of all of them in the same order. *)
Theorem UniverseSelection_fixpoint
    (h : gmap positive (list GrantedPatentsData)) data batch s :
  selection_of batch s ->
  h !! data = Some s ->
  result (UniverseSelection data h) = Ok (map datum_Symbol s).
Proof.
  intros [Hperm Hsorted _] Hdata.
  rewrite (UniverseSelection_run _ _ _ Hdata). cbn [result].
  rewrite selected_list_fixed; [reflexivity| |exact Hsorted].
  apply List.Forall_forall. intros d Hd.
  apply (Permutation_in _ Hperm) in Hd. now apply List.filter_In in Hd.
Qed.

Lemma UniverseSelection_fixpoint_witness :
  result (UniverseSelection 3%positive
            {[ 3%positive := [record_A; record_D; record_C] ]})
  = Ok ["A"; "D"; "C"].
Proof.
  apply (UniverseSelection_fixpoint
           {[ 3%positive := [record_A; record_D; record_C] ]}
           3%positive sample_batch [record_A; record_D; record_C]).
  - exact (list_sort_selection sample_batch).
  - reflexivity.
Defined.

(** The target-holdings commands of [OnSecuritiesChanged]. *)
Lemma OnSecuritiesChanged_issued {H} changes (h : H) :
  holdings_commands (trace (OnSecuritiesChanged changes h))
  = map (fun security =>
           (security_Symbol security,
            double_quotient (len (AddedSecurities changes))))
      (AddedSecurities changes).
Proof.
  rewrite OnSecuritiesChanged_run. cbn [trace holdings_commands].
  apply (holdings_commands_SetHoldings security_Symbol).
Qed.

(** X11: selection and weighting composed.  When the engine reports
    exactly the selected identifiers as added, each of them gets the same
    weight, the double [1.0 / k], where k is the number of candidates that
    meet the three criteria. *)
Theorem selection_then_equal_weight {H}
    (h : gmap positive (list GrantedPatentsData)) data batch out changes
    (h' : H) :
  h !! data = Some batch ->
  result (UniverseSelection data h) = Ok out ->
  map security_Symbol (AddedSecurities changes) = out ->
  holdings_commands (trace (OnSecuritiesChanged changes h'))
  = map (fun s =>
           (s, double_quotient
                 (len (List.filter selection_criteria batch)))) out.
Proof.
  intros Hdata Hout Hadded.
  rewrite OnSecuritiesChanged_issued.
  rewrite (UniverseSelection_run _ _ _ Hdata) in Hout. cbn [result] in Hout.
  injection Hout as Hout.
  assert (Hlen : len (AddedSecurities changes)
                 = len (List.filter selection_criteria batch)).
  { unfold len. f_equal.
    rewrite <- (length_map security_Symbol), Hadded, <- Hout, length_map.
    apply Permutation_length, list_sort_reverse_perm. }
  rewrite Hlen, <- Hadded, map_map. reflexivity.
Qed.

Lemma selection_then_equal_weight_witness :
  holdings_commands (trace (OnSecuritiesChanged selected_changes sample_heap))
  = [("A", 6004799503160661 # 18014398509481984);
     ("D", 6004799503160661 # 18014398509481984);
     ("C", 6004799503160661 # 18014398509481984)].
Proof.
  apply (selection_then_equal_weight sample_heap 1%positive sample_batch
           ["A"; "D"; "C"] selected_changes sample_heap);
    [reflexivity|vm_compute; reflexivity|reflexivity].
Defined.

End UniverseMore.
